(** * JNI binding for whisper.cpp: [src/native/jni/whisper_jni.cpp]

    The binding is a thin shim between a JVM and the whisper.cpp library.
    Both sides are external to the file: the JVM is reached through
    [JNIEnv] and the library through [whisper.h].  The development below
    embeds the three exported functions as computations over an explicit
    process state made of

    - the file-level global [g_n_threads],
    - the part of the JVM the binding touches (string and float-array
      objects, and the native buffers [JNIEnv] hands out),
    - the state of the library, which is opaque,
    - a ghost log of the calls made into the library, with their
      arguments, so that "what was passed to the library" can be stated.

    The target is an LP64 Android ABI: a pointer and a [jlong] are both
    64 bits wide. *)

From stdpp Require Import gmap strings list.

Local Open Scope Z_scope.

(** ** Machine integers and pointers *)

(** A native address; [nullptr] is address 0. *)
Abbreviation ptr := Z (only parsing).
Definition nullptr : ptr := 0.

(** A [jfloat] is carried as its IEEE-754 binary32 bit pattern: the binding
    never computes with samples. *)
Abbreviation jfloat := Z (only parsing).

(** [reinterpret_cast<jlong>(p)]: the 64 address bits read as a signed
    two's-complement integer. *)
Definition jlong_of_ptr (p : ptr) : Z :=
  (p + 2 ^ 63) `mod` 2 ^ 64 - 2 ^ 63.

(** [reinterpret_cast<whisper_context*>(h)]: the 64 bits of the [jlong]
    read as an address. *)
Definition ptr_of_jlong (h : Z) : ptr :=
  h `mod` 2 ^ 64.

(** ** Native buffers handed out by [JNIEnv] *)

Inductive buffer :=
| UtfChars (chars : string)           (* GetStringUTFChars *)
| FloatElems (elems : list jfloat).   (* GetFloatArrayElements *)

(** A [const char*] is read up to its terminator; the [string] stored in a
    [UtfChars] buffer is the characters before it. *)
Definition read_chars (mem : gmap Z buffer) (p : ptr) : option string :=
  match mem !! p with
  | Some (UtfChars s) => Some s
  | _ => None
  end.

Definition read_floats (mem : gmap Z buffer) (p : ptr) : option (list jfloat) :=
  match mem !! p with
  | Some (FloatElems l) => Some l
  | _ => None
  end.

(** Native code storing into the floats of a buffer, in place: [store i x]
    is the value left in element [i], which held [x]. *)
Definition overwrite (store : nat → jfloat → jfloat) (b : buffer) : buffer :=
  match b with
  | FloatElems elems => FloatElems (imap store elems)
  | UtfChars chars => UtfChars chars
  end.

(** Release modes of [ReleaseFloatArrayElements] ([jni.h]). *)
Inductive release_mode :=
| JNI_COPY_AND_FREE   (* mode 0 *)
| JNI_COMMIT
| JNI_ABORT.

(** The JVM as seen through [JNIEnv].  Java strings are kept in the
    modified UTF-8 form in which they cross the boundary. *)
Record JNIEnv := mkEnv {
  jstrings : gmap Z string;               (* java.lang.String objects, by reference *)
  jfloat_arrays : gmap Z (list jfloat);   (* float[] objects, by reference *)
  native : gmap Z buffer;                 (* live native buffers, by address *)
  next_ref : Z;                           (* next fresh local reference *)
  next_addr : Z                           (* next fresh native address *)
}.

(** ** The structs of [whisper.h] the binding writes to

    Only the fields the binding assigns are named; the remaining fields
    of each struct travel together in a component of a type left to the
    library. *)

Inductive whisper_sampling_strategy :=
| WHISPER_SAMPLING_GREEDY
| WHISPER_SAMPLING_BEAM_SEARCH.

Record whisper_context_params (R : Type) := mkCParams {
  use_gpu : bool;
  cparams_rest : R
}.
Arguments mkCParams {R}.
Arguments use_gpu {R}.
Arguments cparams_rest {R}.

Record whisper_full_params (R : Type) := mkWParams {
  strategy : whisper_sampling_strategy;
  n_threads : Z;
  translate : bool;
  language : ptr;
  wparams_rest : R
}.
Arguments mkWParams {R}.
Arguments strategy {R}.
Arguments n_threads {R}.
Arguments translate {R}.
Arguments language {R}.
Arguments wparams_rest {R}.

(** Field assignments. *)
Definition set_use_gpu {R} (b : bool) (c : whisper_context_params R) :=
  mkCParams b (cparams_rest c).
Definition set_n_threads {R} (n : Z) (w : whisper_full_params R) :=
  mkWParams (strategy w) n (translate w) (language w) (wparams_rest w).
Definition set_translate {R} (b : bool) (w : whisper_full_params R) :=
  mkWParams (strategy w) (n_threads w) b (language w) (wparams_rest w).
Definition set_language {R} (p : ptr) (w : whisper_full_params R) :=
  mkWParams (strategy w) (n_threads w) (translate w) p (wparams_rest w).

(** ** The library interface

    The functions of [whisper.h] the binding calls.  [L] is the library's
    own state (loaded models, decode results); a function that reads
    through a pointer argument receives the native memory it may read.

    [whisper_full] is foreign code holding the address of the sample
    buffer; the [const] of its [const float*] parameter is a promise of the
    library, not something the binding can enforce.  [whisper_full_stores]
    is what the call leaves in the buffer: the value of sample [i], given
    the value it held.  A library that keeps the promise leaves every
    sample as it was. *)
Record WhisperLib (CR WR L : Type) := mkLib {
  whisper_context_default_params : whisper_context_params CR;
  whisper_init_from_file_with_params :
    gmap Z buffer → ptr → whisper_context_params CR → L → ptr * L;
  whisper_full_default_params : whisper_sampling_strategy → whisper_full_params WR;
  whisper_full :
    gmap Z buffer → ptr → whisper_full_params WR → ptr → Z → L → Z * L;
  whisper_full_stores :
    gmap Z buffer → ptr → whisper_full_params WR → ptr → Z → L → nat → jfloat → jfloat;
  whisper_full_n_segments : ptr → L → Z;
  whisper_full_get_segment_text : ptr → Z → L → string;
  whisper_free : ptr → L → L
}.
Arguments whisper_context_default_params {CR WR L}.
Arguments whisper_init_from_file_with_params {CR WR L}.
Arguments whisper_full_default_params {CR WR L}.
Arguments whisper_full {CR WR L}.
Arguments whisper_full_stores {CR WR L}.
Arguments whisper_full_n_segments {CR WR L}.
Arguments whisper_full_get_segment_text {CR WR L}.
Arguments whisper_free {CR WR L}.

(** Calls into the library that may change its state, as logged. *)
Inductive LibCall (CR WR : Type) :=
| whisper_init_call (mem : gmap Z buffer) (path : ptr)
    (cparams : whisper_context_params CR)
| whisper_full_call (mem : gmap Z buffer) (ctx : ptr)
    (wparams : whisper_full_params WR) (samples : ptr) (n_samples : Z)
| whisper_free_call (ctx : ptr).
Arguments whisper_init_call {CR WR}.
Arguments whisper_full_call {CR WR}.
Arguments whisper_free_call {CR WR}.

(** ** Process state *)

Record State (CR WR L : Type) := mkState {
  g_n_threads : Z;            (* static int g_n_threads *)
  env : JNIEnv;
  lib_state : L;
  calls : list (LibCall CR WR)
}.
Arguments mkState {CR WR L}.
Arguments g_n_threads {CR WR L}.
Arguments env {CR WR L}.
Arguments lib_state {CR WR L}.
Arguments calls {CR WR L}.

(** The state at library load: [static int g_n_threads = 4]. *)
Definition initial_state {CR WR L} (e : JNIEnv) (l : L) : State CR WR L :=
  mkState 4 e l [].

(** Well-formed JVM view: references and addresses not yet handed out are
    unused. *)
Definition env_wf (e : JNIEnv) : Prop :=
  map_Forall (λ a _, a < next_addr e) (native e) ∧
  map_Forall (λ r _, r < next_ref e) (jstrings e).

#[global] Instance env_wf_dec (e : JNIEnv) : Decision (env_wf e).
Proof. unfold env_wf. apply _. Defined.

Section Binding.
Context {CR WR L : Type}.
Variable W : WhisperLib CR WR L.

Abbreviation St := (State CR WR L).

(** Computations over the process state; [None] is a crash (a JNI call
    on a reference that is no object of the expected class, or a release
    of a buffer that is not live). *)
Definition M (A : Type) : Type := St → option (A * St).

#[export] Instance M_ret : MRet M := λ A x s, Some (x, s).
#[export] Instance M_bind : MBind M := λ A B f m s,
  match m s with
  | Some (a, s') => f a s'
  | None => None
  end.

Definition crash {A} : M A := λ _, None.

(** *** The global *)
Definition read_g_n_threads : M Z := λ s, Some (g_n_threads s, s).
Definition write_g_n_threads (n : Z) : M unit := λ s,
  Some (tt, mkState n (env s) (lib_state s) (calls s)).

(** *** [JNIEnv] functions used by the binding *)
Definition get_env : M JNIEnv := λ s, Some (env s, s).
Definition put_env (e : JNIEnv) : M unit := λ s,
  Some (tt, mkState (g_n_threads s) e (lib_state s) (calls s)).

Definition GetStringUTFChars (str : Z) : M ptr :=
  e ← get_env;
  match jstrings e !! str with
  | None => crash
  | Some chars =>
      let a := next_addr e in
      put_env (mkEnv (jstrings e) (jfloat_arrays e)
                 (<[a := UtfChars chars]> (native e)) (next_ref e) (a + 1));;
      mret a
  end.

Definition ReleaseStringUTFChars (str : Z) (utf : ptr) : M unit :=
  e ← get_env;
  match native e !! utf with
  | Some (UtfChars _) =>
      put_env (mkEnv (jstrings e) (jfloat_arrays e)
                 (delete utf (native e)) (next_ref e) (next_addr e))
  | _ => crash
  end.

Definition GetArrayLength (arr : Z) : M Z :=
  e ← get_env;
  match jfloat_arrays e !! arr with
  | None => crash
  | Some elems => mret (Z.of_nat (length elems))
  end.

Definition GetFloatArrayElements (arr : Z) : M ptr :=
  e ← get_env;
  match jfloat_arrays e !! arr with
  | None => crash
  | Some elems =>
      let a := next_addr e in
      put_env (mkEnv (jstrings e) (jfloat_arrays e)
                 (<[a := FloatElems elems]> (native e)) (next_ref e) (a + 1));;
      mret a
  end.

Definition ReleaseFloatArrayElements (arr : Z) (elems : ptr) (mode : release_mode)
  : M unit :=
  e ← get_env;
  match native e !! elems, jfloat_arrays e !! arr with
  | Some (FloatElems l), Some _ =>
      let arrays' :=
        match mode with
        | JNI_ABORT => jfloat_arrays e
        | _ => <[arr := l]> (jfloat_arrays e)
        end in
      let native' :=
        match mode with
        | JNI_COMMIT => native e
        | _ => delete elems (native e)
        end in
      put_env (mkEnv (jstrings e) arrays' native' (next_ref e) (next_addr e))
  | _, _ => crash
  end.

Definition NewStringUTF (bytes : string) : M Z :=
  e ← get_env;
  let r := next_ref e in
  put_env (mkEnv (<[r := bytes]> (jstrings e)) (jfloat_arrays e)
             (native e) (r + 1) (next_addr e));;
  mret r.

(** *** Calls into the library *)
Definition call_whisper_init_from_file_with_params
    (path : ptr) (cparams : whisper_context_params CR) : M ptr := λ s,
  let mem := native (env s) in
  let '(ctx, l') := whisper_init_from_file_with_params W mem path cparams (lib_state s) in
  Some (ctx, mkState (g_n_threads s) (env s) l'
               (calls s ++ [whisper_init_call mem path cparams])).

Definition call_whisper_full (ctx : ptr) (wparams : whisper_full_params WR)
    (samples : ptr) (n_samples : Z) : M Z := λ s,
  let e := env s in
  let mem := native e in
  let '(status, l') := whisper_full W mem ctx wparams samples n_samples (lib_state s) in
  let stores := whisper_full_stores W mem ctx wparams samples n_samples (lib_state s) in
  let e' := mkEnv (jstrings e) (jfloat_arrays e)
              (alter (overwrite stores) samples mem) (next_ref e) (next_addr e) in
  Some (status, mkState (g_n_threads s) e' l'
                  (calls s ++ [whisper_full_call mem ctx wparams samples n_samples])).

Definition call_whisper_free (ctx : ptr) : M unit := λ s,
  Some (tt, mkState (g_n_threads s) (env s) (whisper_free W ctx (lib_state s))
              (calls s ++ [whisper_free_call ctx])).

Definition call_whisper_full_n_segments (ctx : ptr) : M Z := λ s,
  Some (whisper_full_n_segments W ctx (lib_state s), s).

Definition call_whisper_full_get_segment_text (ctx : ptr) (i : Z) : M string := λ s,
  Some (whisper_full_get_segment_text W ctx i (lib_state s), s).

(** *** The exported functions *)

(** [Java_com_app_whisper_nativelib_WhisperNative_initContext].  The
    global is assigned before anything else happens. *)
Definition initContext (model_path : Z) (n_threads : Z) : M Z :=
  write_g_n_threads (if 0 <? n_threads then n_threads else 4);;
  path ← GetStringUTFChars model_path;
  let cparams := whisper_context_default_params W in
  let cparams := set_use_gpu false cparams in
  ctx ← call_whisper_init_from_file_with_params path cparams;
  ReleaseStringUTFChars model_path path;;
  mret (jlong_of_ptr ctx).

(** [for (int i = 0; i < n_segments; ++i)]: [i < n_segments] keeps [++i]
    inside [int]; the loop runs at most [n_segments] times. *)
Fixpoint segments_loop (fuel : nat) (ctx : ptr) (i n_segments : Z)
    (transcription : string) : M string :=
  match fuel with
  | O => mret transcription
  | S fuel' =>
      if i <? n_segments then
        text ← call_whisper_full_get_segment_text ctx i;
        let transcription := transcription +:+ text in
        let transcription := transcription +:+ " " in
        segments_loop fuel' ctx (i + 1) n_segments transcription
      else mret transcription
  end.

(** [Java_com_app_whisper_nativelib_WhisperNative_transcribeAudio].
    [sample_rate] is received and never used.  [translate] is a
    [jboolean] holding [JNI_FALSE] or [JNI_TRUE]; assigning it to the
    [bool] field keeps that truth value.  [transcription] starts as the
    default-constructed, empty [std::string]. *)
Definition transcribeAudio (context_ptr : Z) (audio_data : Z) (sample_rate : Z)
    (language : Z) (translate : bool) : M Z :=
  let ctx := ptr_of_jlong context_ptr in
  audio_length ← GetArrayLength audio_data;
  audio ← GetFloatArrayElements audio_data;
  let wparams := whisper_full_default_params W WHISPER_SAMPLING_GREEDY in
  g ← read_g_n_threads;
  let wparams := set_n_threads g wparams in
  let wparams := set_translate translate wparams in
  lang ← GetStringUTFChars language;
  let wparams := set_language lang wparams in
  result ← call_whisper_full ctx wparams audio audio_length;
  transcription ←
    (if result =? 0 then
       n_segments ← call_whisper_full_n_segments ctx;
       segments_loop (Z.to_nat n_segments) ctx 0 n_segments EmptyString
     else mret EmptyString);
  ReleaseFloatArrayElements audio_data audio JNI_ABORT;;
  ReleaseStringUTFChars language lang;;
  NewStringUTF transcription.

(** [Java_com_app_whisper_nativelib_WhisperNative_releaseContext] *)
Definition releaseContext (context_ptr : Z) : M unit :=
  let ctx := ptr_of_jlong context_ptr in
  call_whisper_free ctx.

End Binding.

(** ** Sequences of calls from the JVM *)

Inductive JniCall :=
| CallInitContext (model_path n_threads : Z)
| CallTranscribeAudio (context_ptr audio_data sample_rate language : Z) (translate : bool)
| CallReleaseContext (context_ptr : Z).

Section Runs.
Context {CR WR L : Type}.
Variable W : WhisperLib CR WR L.

Definition do_call (c : JniCall) : M unit :=
  match c with
  | CallInitContext model_path n_threads =>
      initContext W model_path n_threads;; mret tt
  | CallTranscribeAudio context_ptr audio_data sample_rate language translate =>
      transcribeAudio W context_ptr audio_data sample_rate language translate;; mret tt
  | CallReleaseContext context_ptr =>
      releaseContext W context_ptr
  end.

Fixpoint run_calls (cs : list JniCall) : M unit :=
  match cs with
  | [] => mret tt
  | c :: cs' => do_call c;; run_calls cs'
  end.

End Runs.

(** ** What the specification says, in its own words *)

(** "the concatenation of every decoded segment's text, space-separated,
    trailing space included". *)
Fixpoint join_trailing_space (texts : list string) : string :=
  match texts with
  | [] => EmptyString
  | t :: ts => t +:+ " " +:+ join_trailing_space ts
  end.

(** The decoded segments' texts, in segment order. *)
Definition segment_texts {CR WR L} (W : WhisperLib CR WR L) (ctx : ptr) (l : L)
  : list string :=
  (λ i, whisper_full_get_segment_text W ctx i l)
    <$> seqZ 0 (whisper_full_n_segments W ctx l).

(** "non-positive values fall back to a default of 4". *)
Definition thread_count_or_default (n_threads : Z) : Z :=
  if decide (n_threads ≤ 0) then 4 else n_threads.

(** The thread count "set by the most recent initializer call", starting
    from [g]. *)
Fixpoint last_configured_threads (cs : list JniCall) (g : Z) : Z :=
  match cs with
  | [] => g
  | CallInitContext _ n :: cs' => last_configured_threads cs' (thread_count_or_default n)
  | _ :: cs' => last_configured_threads cs' g
  end.

(** ** A small library instance, to run the binding on concrete inputs

    It loads exactly the file named [model.bin], fails to decode on a
    context it did not load, decodes an empty buffer to no segment and any
    other buffer to two segments: the language tag, and which of
    transcription or translation was asked for.  It works in place: every
    sample of the buffer it was handed is left cleared. *)
Module Demo.

Record lib := mkDemo {
  loaded : list Z;
  segments : list string
}.

Definition init (mem : gmap Z buffer) (path : ptr)
    (cparams : whisper_context_params unit) (l : lib) : ptr * lib :=
  match read_chars mem path with
  | Some chars =>
      if bool_decide (chars = "model.bin") then
        let h := 4096 + 16 * Z.of_nat (length (loaded l)) in
        (h, mkDemo (h :: loaded l) (segments l))
      else (nullptr, l)
  | None => (nullptr, l)
  end.

Definition full (mem : gmap Z buffer) (ctx : ptr)
    (wparams : whisper_full_params unit) (samples : ptr) (n_samples : Z) (l : lib)
  : Z * lib :=
  if bool_decide (ctx ∈ loaded l) then
    match read_chars mem (language wparams), read_floats mem samples with
    | Some lang, Some _ =>
        if n_samples =? 0 then (0, mkDemo (loaded l) [])
        else (0, mkDemo (loaded l)
                   [lang; if translate wparams then "translated" else "verbatim"])
    | _, _ => (-2, l)
    end
  else (-1, l).

Definition whisper : WhisperLib unit unit lib := {|
  whisper_context_default_params := mkCParams true tt;
  whisper_init_from_file_with_params := init;
  whisper_full_default_params := λ s, mkWParams s 1 false nullptr tt;
  whisper_full := full;
  whisper_full_stores := λ _ _ _ _ _ _ _ _, 0;
  whisper_full_n_segments := λ _ l, Z.of_nat (length (segments l));
  whisper_full_get_segment_text := λ _ i l, nth (Z.to_nat i) (segments l) EmptyString;
  whisper_free := λ ctx l, mkDemo (filter (λ h, h ≠ ctx) (loaded l)) (segments l)
|}.

(** A JVM holding four strings and two float arrays, with no native
    buffer handed out yet. *)
Definition jvm : JNIEnv := {|
  jstrings := {[ 1 := "model.bin"; 2 := "en"; 3 := "de"; 4 := "missing.bin" ]};
  jfloat_arrays := {[ 10 := [0; 1065353216; 3212836864]; 11 := [] ]};
  native := ∅;
  next_ref := 100;
  next_addr := 65536
|}.

Definition start : State unit unit lib := initial_state jvm (mkDemo [] []).

(** The state a sequence of calls leaves. *)
Definition after (cs : list JniCall) : State unit unit lib :=
  match run_calls whisper cs start with
  | Some (_, s) => s
  | None => start
  end.

(** The state after [model.bin] has been loaded with thread count 2; the
    handle returned is 4096. *)
Definition ready : State unit unit lib := after [CallInitContext 1 2].

End Demo.


(** "default context parameters with hardware acceleration disabled". *)
Definition cpu_only_params {CR WR L} (W : WhisperLib CR WR L) : whisper_context_params CR :=
  mkCParams false (cparams_rest (whisper_context_default_params W)).

(** "a greedy-sampling decode configuration" with "the process-wide thread
    count and the translate flag and language pointer" injected. *)
Definition decode_config {CR WR L} (W : WhisperLib CR WR L)
    (threads : Z) (translate : bool) (lang : ptr) : whisper_full_params WR :=
  let d := whisper_full_default_params W WHISPER_SAMPLING_GREEDY in
  mkWParams (strategy d) threads translate lang (wparams_rest d).

(** The decode invocation of a [transcribeAudio] call in state [st], on an
    audio array holding [samples] and a language string holding [tag]:
    its status and the library state it leaves. *)
Definition decode_invocation {CR WR L} (W : WhisperLib CR WR L)
    (context_ptr : Z) (translate : bool) (st : State CR WR L)
    (samples : list jfloat) (tag : string) : Z * L :=
  let audio := next_addr (env st) in
  let lang := audio + 1 in
  let mem := <[lang := UtfChars tag]> (<[audio := FloatElems samples]> (native (env st))) in
  whisper_full W mem (ptr_of_jlong context_ptr)
    (decode_config W (g_n_threads st) translate lang)
    audio (Z.of_nat (length samples)) (lib_state st).

(** The model-load invocation of an [initContext] call in state [st], on a
    path string holding [chars]: the context pointer and the library state
    it leaves. *)
Definition load_invocation {CR WR L} (W : WhisperLib CR WR L)
    (st : State CR WR L) (chars : string) : ptr * L :=
  let path := next_addr (env st) in
  let mem := <[path := UtfChars chars]> (native (env st)) in
  whisper_init_from_file_with_params W mem path (cpu_only_params W) (lib_state st).

(** ** Reading the log *)

Inductive call_kind := KInit | KFull | KFree.

Definition kind_of_call {CR WR} (c : LibCall CR WR) : call_kind :=
  match c with
  | whisper_init_call _ _ _ => KInit
  | whisper_full_call _ _ _ _ _ => KFull
  | whisper_free_call _ => KFree
  end.

(** The library function each exported function is written around. *)
Definition kind_of_jni (c : JniCall) : call_kind :=
  match c with
  | CallInitContext _ _ => KInit
  | CallTranscribeAudio _ _ _ _ _ => KFull
  | CallReleaseContext _ => KFree
  end.

(** A logged decode was asked to run on at least one thread. *)
Definition positive_threads_call {CR WR} (c : LibCall CR WR) : Prop :=
  match c with
  | whisper_full_call _ _ wparams _ _ => 0 < n_threads wparams
  | _ => True
  end.

(** * Properties *)

(** ** Strings *)

Lemma append_empty_r (s : string) : s +:+ EmptyString = s.
Proof.
  induction s as [|c s IH]; [reflexivity|].
  unfold String.app; fold String.app. by rewrite IH.
Qed.

Lemma append_assoc (s1 s2 s3 : string) : (s1 +:+ s2) +:+ s3 = s1 +:+ s2 +:+ s3.
Proof.
  induction s1 as [|c s1 IH]; [reflexivity|].
  unfold String.app; fold String.app. by rewrite IH.
Qed.

(** ** Pointer casts *)

Lemma ptr_of_jlong_of_ptr (p : ptr) :
  0 ≤ p < 2 ^ 64 → ptr_of_jlong (jlong_of_ptr p) = p.
Proof.
  intros Hp. unfold ptr_of_jlong, jlong_of_ptr.
  rewrite Zminus_mod_idemp_l.
  replace (p + 2 ^ 63 - 2 ^ 63) with p by lia.
  by apply Z.mod_small.
Qed.

Lemma jlong_of_ptr_null (p : ptr) :
  0 ≤ p < 2 ^ 64 → jlong_of_ptr p = 0 ↔ p = nullptr.
Proof.
  intros Hp. unfold jlong_of_ptr, nullptr. split; [|by intros ->].
  intros H.
  destruct (decide (p < 2 ^ 63)).
  - rewrite Z.mod_small in H; lia.
  - replace (p + 2 ^ 63) with (p - 2 ^ 63 + 1 * 2 ^ 64) in H by lia.
    rewrite Z.mod_add in H by lia.
    rewrite Z.mod_small in H; lia.
Qed.

Section Properties.
Context {CR WR L : Type}.
Variable W : WhisperLib CR WR L.

Implicit Types st : State CR WR L.

(** ** Running the monad *)

Ltac run_M :=
  unfold mbind, M_bind, mret, M_ret, get_env, put_env, crash,
    read_g_n_threads, write_g_n_threads; simpl.

Lemma bind_run {A B} (m : M A) (f : A → M B) st :
  (m ≫= f) st = match m st with Some (a, st') => f a st' | None => None end.
Proof. reflexivity. Qed.

(** ** The segment loop *)

Lemma segments_loop_run (ctx : ptr) (n : Z) (fuel : nat) :
  ∀ (i : Z) (acc : string) st,
    (Z.to_nat (n - i) ≤ fuel)%nat →
    segments_loop W fuel ctx i n acc st =
    Some (acc +:+ join_trailing_space
                    ((λ j, whisper_full_get_segment_text W ctx j (lib_state st))
                       <$> seqZ i (n - i)),
          st).
Proof.
  induction fuel as [|fuel IH]; intros i acc st Hfuel; simpl.
  - rewrite seqZ_nil by lia. simpl. by rewrite append_empty_r.
  - destruct (Z.ltb_spec i n) as [Hlt|Hge].
    + rewrite bind_run. simpl. rewrite IH by lia.
      rewrite (seqZ_cons i (n - i)) by lia. simpl.
      replace (Z.succ i) with (i + 1) by lia.
      replace (Z.pred (n - i)) with (n - (i + 1)) by lia.
      by rewrite !append_assoc.
    + rewrite seqZ_nil by lia. simpl. by rewrite append_empty_r.
Qed.

(** ** One call of each exported function, run to its end *)

Lemma initContext_run (model_path n : Z) st (chars : string) :
  jstrings (env st) !! model_path = Some chars →
  let e := env st in
  let path := next_addr e in
  let mem := <[path := UtfChars chars]> (native e) in
  let r := whisper_init_from_file_with_params W mem path (cpu_only_params W) (lib_state st) in
  initContext W model_path n st =
  Some (jlong_of_ptr r.1,
        mkState (if 0 <? n then n else 4)
          (mkEnv (jstrings e) (jfloat_arrays e) (delete path mem) (next_ref e) (path + 1))
          r.2
          (calls st ++ [whisper_init_call mem path (cpu_only_params W)])).
Proof.
  intros Hpath e path mem r.
  unfold initContext, GetStringUTFChars, ReleaseStringUTFChars,
    call_whisper_init_from_file_with_params.
  run_M. rewrite Hpath. run_M.
  fold e path mem. unfold set_use_gpu. fold (cpu_only_params W). fold r.
  destruct r as [ctx l']. run_M.
  assert (mem !! path = Some (UtfChars chars)) as -> by apply lookup_insert_eq.
  reflexivity.
Qed.

Lemma transcribeAudio_run (context_ptr audio_data sample_rate language : Z)
    (translate : bool) st (samples : list jfloat) (tag : string) :
  jfloat_arrays (env st) !! audio_data = Some samples →
  jstrings (env st) !! language = Some tag →
  let e := env st in
  let audio := next_addr e in
  let lang := next_addr e + 1 in
  let mem := <[lang := UtfChars tag]> (<[audio := FloatElems samples]> (native e)) in
  let ctx := ptr_of_jlong context_ptr in
  let wparams := decode_config W (g_n_threads st) translate lang in
  let n_samples := Z.of_nat (length samples) in
  let r := whisper_full W mem ctx wparams audio n_samples (lib_state st) in
  let transcription :=
    if r.1 =? 0 then join_trailing_space (segment_texts W ctx r.2) else EmptyString in
  transcribeAudio W context_ptr audio_data sample_rate language translate st =
  Some (next_ref e,
        mkState (g_n_threads st)
          (mkEnv (<[next_ref e := transcription]> (jstrings e)) (jfloat_arrays e)
             (delete lang (delete audio mem)) (next_ref e + 1) (lang + 1))
          r.2
          (calls st ++ [whisper_full_call mem ctx wparams audio n_samples])).
Proof.
  intros Harr Hlang. cbv zeta.
  unfold transcribeAudio, GetArrayLength, GetFloatArrayElements, GetStringUTFChars,
    call_whisper_full.
  run_M. rewrite Harr. run_M. rewrite Harr. run_M. rewrite Hlang. run_M.
  unfold set_language, set_translate, set_n_threads, decode_config. simpl.
  set (audio := next_addr (env st)).
  set (mem := <[audio + 1 := UtfChars tag]> (<[audio := FloatElems samples]> _)).
  match goal with
  | |- context [whisper_full W ?m ?c ?w ?p ?n ?l] =>
      destruct (whisper_full W m c w p n l) as [status l']
  end.
  simpl.
  set (transcription := if status =? 0 then join_trailing_space _ else _).
  assert (Hloop : ∀ st1 : State CR WR L, lib_state st1 = l' →
            (if status =? 0
             then λ s, segments_loop W
                         (Z.to_nat (whisper_full_n_segments W (ptr_of_jlong context_ptr)
                                      (lib_state s)))
                         (ptr_of_jlong context_ptr) 0
                         (whisper_full_n_segments W (ptr_of_jlong context_ptr)
                            (lib_state s)) EmptyString s
             else λ s, Some (EmptyString, s)) st1 = Some (transcription, st1)).
  { intros st1 Hst1. unfold transcription. destruct (status =? 0); [|done].
    rewrite segments_loop_run by lia.
    unfold segment_texts. rewrite Hst1, Z.sub_0_r. reflexivity. }
  unfold call_whisper_full_n_segments. run_M. rewrite Hloop by reflexivity.
  unfold ReleaseFloatArrayElements, ReleaseStringUTFChars. run_M.
  match goal with |- context [alter ?f audio mem] => set (left := alter f audio mem) end.
  assert (∃ elems, left !! audio = Some (FloatElems elems)) as [elems ->].
  { unfold left, mem. rewrite lookup_alter_eq.
    rewrite lookup_insert_ne by lia. rewrite lookup_insert_eq. simpl. by eexists. }
  rewrite Harr. run_M.
  assert (delete audio left !! (audio + 1) = Some (UtfChars tag)) as ->.
  { unfold left. rewrite lookup_delete_ne by lia. rewrite lookup_alter_ne by lia.
    apply lookup_insert_eq. }
  unfold NewStringUTF. run_M.
  unfold left. by rewrite delete_alter_eq.
Qed.

(** A call that returns was given references to objects of the right
    class. *)
Lemma initContext_inv (model_path n h : Z) st st' :
  initContext W model_path n st = Some (h, st') →
  ∃ chars, jstrings (env st) !! model_path = Some chars.
Proof.
  destruct (jstrings (env st) !! model_path) as [chars|] eqn:Hpath; [by eauto|].
  unfold initContext, GetStringUTFChars. run_M. by rewrite Hpath.
Qed.

Lemma transcribeAudio_inv (context_ptr audio_data sample_rate language r : Z)
    (translate : bool) st st' :
  transcribeAudio W context_ptr audio_data sample_rate language translate st
    = Some (r, st') →
  ∃ samples tag,
    jfloat_arrays (env st) !! audio_data = Some samples ∧
    jstrings (env st) !! language = Some tag.
Proof.
  destruct (jfloat_arrays (env st) !! audio_data) as [samples|] eqn:Harr.
  - destruct (jstrings (env st) !! language) as [tag|] eqn:Hlang; [by eauto|].
    unfold transcribeAudio, GetArrayLength, GetFloatArrayElements, GetStringUTFChars.
    run_M. rewrite Harr. run_M. rewrite Harr. run_M. by rewrite Hlang.
  - unfold transcribeAudio, GetArrayLength. run_M. by rewrite Harr.
Qed.

(** ** Releasing in abort mode *)

(** Whatever the native buffer holds by then, [JNI_ABORT] frees it and
    copies nothing back; mode 0 would have stored its contents into the
    array. *)
Lemma release_abort_discards (arr elems : Z) st (l old : list jfloat) :
  native (env st) !! elems = Some (FloatElems l) →
  jfloat_arrays (env st) !! arr = Some old →
  ∃ st', ReleaseFloatArrayElements arr elems JNI_ABORT st = Some (tt, st') ∧
    jfloat_arrays (env st') = jfloat_arrays (env st) ∧
    native (env st') !! elems = None.
Proof.
  intros Hbuf Harr. unfold ReleaseFloatArrayElements. run_M.
  rewrite Hbuf, Harr. run_M. eexists. split; [reflexivity|]. simpl.
  split; [reflexivity | apply lookup_delete_eq].
Qed.

Lemma release_copy_back_stores (arr elems : Z) st (l old : list jfloat) :
  native (env st) !! elems = Some (FloatElems l) →
  jfloat_arrays (env st) !! arr = Some old →
  ∃ st', ReleaseFloatArrayElements arr elems JNI_COPY_AND_FREE st = Some (tt, st') ∧
    jfloat_arrays (env st') !! arr = Some l.
Proof.
  intros Hbuf Harr. unfold ReleaseFloatArrayElements. run_M.
  rewrite Hbuf, Harr. run_M. eexists. split; [reflexivity|]. simpl.
  apply lookup_insert_eq.
Qed.

(** ** Well-formed JVM views *)

Lemma env_wf_fresh_addr (e : JNIEnv) (a : Z) :
  env_wf e → next_addr e ≤ a → native e !! a = None.
Proof.
  intros [Hn _] Ha. destruct (native e !! a) as [b|] eqn:Hb; [|done].
  apply Hn in Hb. simpl in Hb. lia.
Qed.

Lemma env_wf_fresh_ref (e : JNIEnv) (r : Z) :
  env_wf e → next_ref e ≤ r → jstrings e !! r = None.
Proof.
  intros [_ Hs] Hr. destruct (jstrings e !! r) as [b|] eqn:Hb; [|done].
  apply Hs in Hb. simpl in Hb. lia.
Qed.

(** Two buffers handed out at fresh addresses and then released leave the
    native memory as it was. *)
Lemma borrow_two_release (m : gmap Z buffer) (a : Z) (x y : buffer) :
  m !! a = None → m !! (a + 1) = None →
  delete (a + 1) (delete a (<[a + 1 := y]> (<[a := x]> m))) = m.
Proof.
  intros Ha Hb.
  rewrite (delete_insert_ne _ a (a + 1)) by lia.
  rewrite (delete_insert_id m a x) by done.
  by rewrite delete_insert_id.
Qed.

Lemma initContext_wf (model_path n h : Z) st st' :
  env_wf (env st) →
  initContext W model_path n st = Some (h, st') →
  env_wf (env st').
Proof.
  intros Hwf Hrun.
  destruct (initContext_inv _ _ _ _ _ Hrun) as [chars Hpath].
  rewrite (initContext_run _ n st chars Hpath) in Hrun.
  injection Hrun as _ <-. simpl.
  rewrite delete_insert_id by (apply env_wf_fresh_addr; [done|lia]).
  destruct Hwf as [Hn Hs]. split; simpl; [|done].
  eapply map_Forall_impl; [exact Hn|]. simpl. intros; lia.
Qed.

Lemma transcribeAudio_wf (context_ptr audio_data sample_rate language r : Z)
    (translate : bool) st st' :
  env_wf (env st) →
  transcribeAudio W context_ptr audio_data sample_rate language translate st
    = Some (r, st') →
  env_wf (env st').
Proof.
  intros Hwf Hrun.
  destruct (transcribeAudio_inv _ _ _ _ _ _ _ _ Hrun) as (samples & tag & Harr & Hlang).
  rewrite (transcribeAudio_run _ _ sample_rate _ translate st _ _ Harr Hlang) in Hrun.
  injection Hrun as _ <-. simpl.
  rewrite borrow_two_release by (apply env_wf_fresh_addr; [done|lia]).
  destruct Hwf as [Hn Hs]. split; simpl.
  - eapply map_Forall_impl; [exact Hn|]. simpl. intros; lia.
  - apply map_Forall_insert_2; [lia|].
    eapply map_Forall_impl; [exact Hs|]. simpl. intros; lia.
Qed.

(** ** The thread count along a run *)

Lemma do_call_threads (c : JniCall) st st' (u : unit) :
  do_call W c st = Some (u, st') →
  g_n_threads st' = last_configured_threads [c] (g_n_threads st).
Proof.
  destruct c as [model_path n|context_ptr audio_data sample_rate language translate|h];
    simpl; rewrite ?bind_run.
  - destruct (initContext W model_path n st) as [[h st1]|] eqn:Hrun; [|done].
    intros [= _ <-].
    destruct (initContext_inv _ _ _ _ _ Hrun) as [chars Hpath].
    rewrite (initContext_run _ n st chars Hpath) in Hrun.
    injection Hrun as _ <-. simpl. unfold thread_count_or_default.
    destruct (Z.ltb_spec 0 n); case_decide; (done || lia).
  - destruct (transcribeAudio W _ _ _ _ _ st) as [[r st1]|] eqn:Hrun; [|done].
    intros [= _ <-].
    destruct (transcribeAudio_inv _ _ _ _ _ _ _ _ Hrun) as (samples & tag & Harr & Hlang).
    rewrite (transcribeAudio_run _ _ sample_rate _ translate st _ _ Harr Hlang) in Hrun.
    by injection Hrun as _ <-.
  - unfold releaseContext, call_whisper_free. by intros [= _ <-].
Qed.


(** ** The context initializer *)

(** C3: for every [initContext] call, a non-positive thread-count argument
    sets the process-wide thread count to 4 and a positive one sets it to
    exactly that argument. *)
Theorem initContext_sets_thread_count (model_path n : Z) st (chars : string) :
  jstrings (env st) !! model_path = Some chars →
  ∃ h st', initContext W model_path n st = Some (h, st') ∧
    (n ≤ 0 → g_n_threads st' = 4) ∧
    (0 < n → g_n_threads st' = n).
Proof.
  intros Hpath. eexists _, _. split; [by apply initContext_run|]. simpl.
  destruct (Z.ltb_spec 0 n); split; intros; (done || lia).
Qed.

(** C5: the handle [initContext] returns is the pointer the library's
    model-load function produced, cast to a [jlong]; it is non-zero when
    the library returned a context and zero when the library returned
    [nullptr], and it casts back to that same pointer. *)
Theorem initContext_forwards_handle (model_path n : Z) st (chars : string) :
  jstrings (env st) !! model_path = Some chars →
  let path := next_addr (env st) in
  let mem := <[path := UtfChars chars]> (native (env st)) in
  let ctx :=
    (whisper_init_from_file_with_params W mem path (cpu_only_params W) (lib_state st)).1 in
  0 ≤ ctx < 2 ^ 64 →
  ∃ st', initContext W model_path n st = Some (jlong_of_ptr ctx, st') ∧
    ptr_of_jlong (jlong_of_ptr ctx) = ctx ∧
    (ctx ≠ nullptr → jlong_of_ptr ctx ≠ 0) ∧
    (ctx = nullptr → jlong_of_ptr ctx = 0).
Proof.
  intros Hpath path mem ctx Hctx.
  eexists. split; [by apply initContext_run|].
  split; [by apply ptr_of_jlong_of_ptr|].
  destruct (jlong_of_ptr_null ctx Hctx) as [Hnull Hzero].
  split; [intros Hne Hz; by apply Hne, Hnull | exact Hzero].
Qed.

(** C7: for every [initContext] call, whatever its arguments, the one call
    made into the library is the model load, on the characters of the
    path string, with the library's default context parameters in which
    [use_gpu] has been set to false. *)
Theorem initContext_loads_cpu_only (model_path n : Z) st (chars : string) :
  jstrings (env st) !! model_path = Some chars →
  ∃ h st' mem path,
    initContext W model_path n st = Some (h, st') ∧
    read_chars mem path = Some chars ∧
    calls st' = calls st ++
      [whisper_init_call mem path
         (mkCParams false (cparams_rest (whisper_context_default_params W)))].
Proof.
  intros Hpath. eexists _, _, _, _.
  split; [by apply initContext_run|]. simpl. split; [|reflexivity].
  unfold read_chars. by rewrite lookup_insert_eq.
Qed.

(** ** The transcription invoker *)

Lemma join_no_segments (ctx : ptr) (l : L) :
  whisper_full_n_segments W ctx l = 0 →
  join_trailing_space (segment_texts W ctx l) = EmptyString.
Proof. intros Hn. unfold segment_texts. by rewrite Hn. Qed.

(** C1: when the decode invocation of a [transcribeAudio] call returns
    status 0, the string returned is the texts of all decoded segments, in
    segment order, each followed by one space. *)
Theorem transcribeAudio_success_concatenation
    (context_ptr audio_data sample_rate language : Z) (translate : bool) st
    (samples : list jfloat) (tag : string) :
  jfloat_arrays (env st) !! audio_data = Some samples →
  jstrings (env st) !! language = Some tag →
  let decoded := decode_invocation W context_ptr translate st samples tag in
  decoded.1 = 0 →
  ∃ ref st',
    transcribeAudio W context_ptr audio_data sample_rate language translate st
      = Some (ref, st') ∧
    lib_state st' = decoded.2 ∧
    jstrings (env st') !! ref =
      Some (join_trailing_space
              (segment_texts W (ptr_of_jlong context_ptr) (lib_state st'))).
Proof.
  intros Harr Hlang decoded Hok. eexists _, _.
  split; [by apply transcribeAudio_run|]. simpl.
  split; [reflexivity|]. rewrite lookup_insert_eq.
  fold (decode_invocation W context_ptr translate st samples tag). fold decoded.
  by rewrite Hok.
Qed.

(** C2: when the decode invocation of a [transcribeAudio] call returns a
    non-zero status, the call returns a new empty string; that string is
    the only change to the objects of the JVM, and the global is left as
    it was: nothing of the status reaches the caller. *)
Theorem transcribeAudio_failure_empty
    (context_ptr audio_data sample_rate language : Z) (translate : bool) st
    (samples : list jfloat) (tag : string) :
  jfloat_arrays (env st) !! audio_data = Some samples →
  jstrings (env st) !! language = Some tag →
  (decode_invocation W context_ptr translate st samples tag).1 ≠ 0 →
  ∃ ref st',
    transcribeAudio W context_ptr audio_data sample_rate language translate st
      = Some (ref, st') ∧
    jstrings (env st') !! ref = Some EmptyString ∧
    jstrings (env st') = <[ref := EmptyString]> (jstrings (env st)) ∧
    jfloat_arrays (env st') = jfloat_arrays (env st) ∧
    g_n_threads st' = g_n_threads st.
Proof.
  intros Harr Hlang Hfail. eexists _, _.
  split; [by apply transcribeAudio_run|]. simpl.
  fold (decode_invocation W context_ptr translate st samples tag).
  apply Z.eqb_neq in Hfail. rewrite Hfail.
  by rewrite lookup_insert_eq.
Qed.

(** C9: from the same JVM state, a [transcribeAudio] call whose decode
    fails and one whose decode succeeds with zero segments return the same
    reference to an empty string and leave the JVM in the same state. *)
Theorem failed_and_empty_decode_indistinguishable
    (context_ptr1 audio_data1 sample_rate1 language1 : Z) (translate1 : bool)
    (context_ptr2 audio_data2 sample_rate2 language2 : Z) (translate2 : bool)
    st1 st2 (samples1 samples2 : list jfloat) (tag1 tag2 : string) :
  env st1 = env st2 →
  env_wf (env st1) →
  jfloat_arrays (env st1) !! audio_data1 = Some samples1 →
  jstrings (env st1) !! language1 = Some tag1 →
  jfloat_arrays (env st2) !! audio_data2 = Some samples2 →
  jstrings (env st2) !! language2 = Some tag2 →
  (decode_invocation W context_ptr1 translate1 st1 samples1 tag1).1 ≠ 0 →
  let decoded := decode_invocation W context_ptr2 translate2 st2 samples2 tag2 in
  decoded.1 = 0 →
  whisper_full_n_segments W (ptr_of_jlong context_ptr2) decoded.2 = 0 →
  ∃ ref st1' st2',
    transcribeAudio W context_ptr1 audio_data1 sample_rate1 language1 translate1 st1
      = Some (ref, st1') ∧
    transcribeAudio W context_ptr2 audio_data2 sample_rate2 language2 translate2 st2
      = Some (ref, st2') ∧
    jstrings (env st1') !! ref = Some EmptyString ∧
    env st1' = env st2'.
Proof.
  intros Henv Hwf Harr1 Hlang1 Harr2 Hlang2 Hfail decoded Hok Hnone.
  eexists _, _, _.
  split; [by apply transcribeAudio_run|].
  split; [rewrite Henv; by apply transcribeAudio_run|]. simpl.
  fold (decode_invocation W context_ptr1 translate1 st1 samples1 tag1).
  fold (decode_invocation W context_ptr2 translate2 st2 samples2 tag2). fold decoded.
  apply Z.eqb_neq in Hfail. rewrite Hfail, Hok. simpl.
  rewrite join_no_segments by done.
  split; [by rewrite lookup_insert_eq|].
  rewrite <- Henv.
  by rewrite !borrow_two_release by (apply env_wf_fresh_addr; [done|lia]).
Qed.

(** C10: [transcribeAudio] tests nothing about the handle: for every
    integer handle, the library's decode function receives as context
    pointer the 64 bits of the handle read as an address.  That is the
    handle itself when it is not negative, and address 0, the null pointer,
    for the zero handle. *)
Theorem transcribeAudio_passes_any_handle
    (context_ptr audio_data sample_rate language : Z) (translate : bool) st
    (samples : list jfloat) (tag : string) :
  jfloat_arrays (env st) !! audio_data = Some samples →
  jstrings (env st) !! language = Some tag →
  ∃ ref st' mem ctx wparams audio n_samples,
    transcribeAudio W context_ptr audio_data sample_rate language translate st
      = Some (ref, st') ∧
    calls st' = calls st ++ [whisper_full_call mem ctx wparams audio n_samples] ∧
    ctx = context_ptr `mod` 2 ^ 64 ∧
    (0 ≤ context_ptr < 2 ^ 63 → ctx = context_ptr) ∧
    (- 2 ^ 63 ≤ context_ptr < 0 → ctx = context_ptr + 2 ^ 64) ∧
    (context_ptr = 0 → ctx = 0).
Proof.
  intros Harr Hlang. eexists _, _, _, _, _, _, _.
  split; [by apply transcribeAudio_run|]. simpl.
  split; [reflexivity|]. unfold ptr_of_jlong.
  split; [reflexivity|].
  split; [intros H; apply Z.mod_small; lia|].
  split; [|by intros ->].
  intros H.
  replace context_ptr with (context_ptr + 2 ^ 64 + (-1) * 2 ^ 64) at 1 by lia.
  rewrite Z.mod_add by lia. apply Z.mod_small; lia.
Qed.

(** C8: a [transcribeAudio] call hands the library a native buffer holding
    the samples of the caller's array.  Whatever the library left in that
    buffer, when the call returns every float array of the JVM holds what
    it held before (nothing is copied back), that buffer is no longer
    live, and the live native buffers are those of before the call. *)
Theorem transcribeAudio_borrows_audio
    (context_ptr audio_data sample_rate language : Z) (translate : bool) st
    (samples : list jfloat) (tag : string) :
  env_wf (env st) →
  jfloat_arrays (env st) !! audio_data = Some samples →
  jstrings (env st) !! language = Some tag →
  ∃ ref st' mem ctx wparams audio n_samples,
    transcribeAudio W context_ptr audio_data sample_rate language translate st
      = Some (ref, st') ∧
    calls st' = calls st ++ [whisper_full_call mem ctx wparams audio n_samples] ∧
    read_floats mem audio = Some samples ∧
    jfloat_arrays (env st') = jfloat_arrays (env st) ∧
    native (env st') !! audio = None ∧
    native (env st') = native (env st).
Proof.
  intros Hwf Harr Hlang. eexists _, _, _, _, _, _, _.
  split; [by apply transcribeAudio_run|]. simpl.
  split; [reflexivity|].
  split.
  { unfold read_floats. rewrite lookup_insert_ne by lia. by rewrite lookup_insert_eq. }
  split; [reflexivity|].
  rewrite borrow_two_release by (apply env_wf_fresh_addr; [done|lia]).
  split; [|reflexivity].
  by apply env_wf_fresh_addr.
Qed.

(** C6: in two successive [transcribeAudio] calls on the same context,
    each decode invocation receives the library's greedy defaults with the
    thread count, and with the translate flag and the language characters
    of that call's own arguments. *)
Theorem transcribeAudio_fresh_config (context_ptr : Z)
    (audio_data1 sample_rate1 language1 : Z) (translate1 : bool)
    (audio_data2 sample_rate2 language2 : Z) (translate2 : bool) st
    (samples1 samples2 : list jfloat) (tag1 tag2 : string) :
  env_wf (env st) →
  jfloat_arrays (env st) !! audio_data1 = Some samples1 →
  jstrings (env st) !! language1 = Some tag1 →
  jfloat_arrays (env st) !! audio_data2 = Some samples2 →
  jstrings (env st) !! language2 = Some tag2 →
  ∃ ref1 st1 ref2 st2 mem1 lang1 audio1 n1 mem2 lang2 audio2 n2,
    transcribeAudio W context_ptr audio_data1 sample_rate1 language1 translate1 st
      = Some (ref1, st1) ∧
    transcribeAudio W context_ptr audio_data2 sample_rate2 language2 translate2 st1
      = Some (ref2, st2) ∧
    calls st2 = calls st ++
      [whisper_full_call mem1 (ptr_of_jlong context_ptr)
         (decode_config W (g_n_threads st) translate1 lang1) audio1 n1;
       whisper_full_call mem2 (ptr_of_jlong context_ptr)
         (decode_config W (g_n_threads st) translate2 lang2) audio2 n2] ∧
    read_chars mem1 lang1 = Some tag1 ∧
    read_chars mem2 lang2 = Some tag2.
Proof.
  intros Hwf Harr1 Hlang1 Harr2 Hlang2.
  pose proof (transcribeAudio_run context_ptr audio_data1 sample_rate1 language1
                translate1 st samples1 tag1 Harr1 Hlang1) as Hrun1.
  cbv zeta in Hrun1.
  match type of Hrun1 with _ = Some (_, ?s) => set (st1 := s) in * end.
  assert (jfloat_arrays (env st1) !! audio_data2 = Some samples2) as Harr2' by done.
  assert (jstrings (env st1) !! language2 = Some tag2) as Hlang2'.
  { simpl. rewrite lookup_insert_ne; [done|]. intros <-.
    rewrite (env_wf_fresh_ref _ _ Hwf) in Hlang2; [done|lia]. }
  pose proof (transcribeAudio_run context_ptr audio_data2 sample_rate2 language2
                translate2 st1 samples2 tag2 Harr2' Hlang2') as Hrun2.
  cbv zeta in Hrun2.
  eexists _, _, _, _, _, _, _, _, _, _, _, _.
  split; [exact Hrun1|]. split; [exact Hrun2|]. simpl.
  split; [by rewrite <- app_assoc|].
  unfold read_chars. by rewrite !lookup_insert_eq.
Qed.


(** * Further properties of the binding *)

(** ** Handles *)

(** X2: a handle in the range of [jlong] casts to an address of 64 bits
    and back to itself, so distinct handles reach the library as distinct
    pointers. *)
Theorem handle_cast_round_trip (h : Z) :
  - 2 ^ 63 ≤ h < 2 ^ 63 →
  0 ≤ ptr_of_jlong h < 2 ^ 64 ∧ jlong_of_ptr (ptr_of_jlong h) = h.
Proof.
  intros Hh. unfold jlong_of_ptr, ptr_of_jlong.
  split; [apply Z.mod_pos_bound; lia|].
  rewrite Zplus_mod_idemp_l.
  rewrite Z.mod_small by lia. lia.
Qed.

(** X3: the handle [initContext] returns, given to [transcribeAudio],
    reaches the library's decode function as the very pointer the model
    load produced. *)
Theorem handle_reaches_decode (model_path n audio_data sample_rate language : Z)
    (translate : bool) st (chars : string) (samples : list jfloat) (tag : string) :
  jstrings (env st) !! model_path = Some chars →
  jfloat_arrays (env st) !! audio_data = Some samples →
  jstrings (env st) !! language = Some tag →
  let ctx := (load_invocation W st chars).1 in
  0 ≤ ctx < 2 ^ 64 →
  ∃ h st1 ref st2 mem wparams audio n_samples,
    initContext W model_path n st = Some (h, st1) ∧
    transcribeAudio W h audio_data sample_rate language translate st1
      = Some (ref, st2) ∧
    calls st2 = calls st1 ++ [whisper_full_call mem ctx wparams audio n_samples].
Proof.
  intros Hpath Harr Hlang ctx Hctx.
  pose proof (initContext_run model_path n st chars Hpath) as Hinit.
  cbv zeta in Hinit.
  match type of Hinit with _ = Some (_, ?s) => set (st1 := s) in * end.
  pose proof (transcribeAudio_run (jlong_of_ptr ctx) audio_data sample_rate language
                translate st1 samples tag Harr Hlang) as Hrun.
  cbv zeta in Hrun.
  eexists _, _, _, _, _, _, _, _.
  split; [exact Hinit|]. split; [exact Hrun|].
  by rewrite ptr_of_jlong_of_ptr.
Qed.

(** X4: the handle [initContext] returns, given to [releaseContext],
    frees the very context the model load produced; the two calls together
    make exactly these two library calls. *)
Theorem handle_reaches_free (model_path n : Z) st (chars : string) :
  jstrings (env st) !! model_path = Some chars →
  let loaded := load_invocation W st chars in
  0 ≤ loaded.1 < 2 ^ 64 →
  ∃ h st1 st2 mem path,
    initContext W model_path n st = Some (h, st1) ∧
    releaseContext W h st1 = Some (tt, st2) ∧
    calls st2 = calls st ++
      [whisper_init_call mem path (cpu_only_params W); whisper_free_call loaded.1] ∧
    lib_state st2 = whisper_free W loaded.1 loaded.2.
Proof.
  intros Hpath loaded Hctx.
  pose proof (initContext_run model_path n st chars Hpath) as Hinit.
  cbv zeta in Hinit.
  eexists _, _, _, _, _.
  split; [exact Hinit|].
  unfold releaseContext, call_whisper_free. simpl.
  split; [reflexivity|]. simpl.
  fold (load_invocation W st chars). fold loaded.
  rewrite ptr_of_jlong_of_ptr by done.
  split; [by rewrite <- app_assoc | reflexivity].
Qed.

(** ** What one call does to the JVM *)

(** X5: [initContext] borrows the characters of the path string and gives
    them back: when it returns, the strings, the float arrays and the live
    native buffers of the JVM are those of before the call, and no JVM
    object was created. *)
Theorem initContext_leaves_jvm (model_path n : Z) st (chars : string) :
  env_wf (env st) →
  jstrings (env st) !! model_path = Some chars →
  ∃ h st',
    initContext W model_path n st = Some (h, st') ∧
    jstrings (env st') = jstrings (env st) ∧
    jfloat_arrays (env st') = jfloat_arrays (env st) ∧
    native (env st') = native (env st) ∧
    next_ref (env st') = next_ref (env st).
Proof.
  intros Hwf Hpath. eexists _, _.
  split; [by apply initContext_run|]. simpl.
  by rewrite delete_insert_id by (apply env_wf_fresh_addr; [done|lia]).
Qed.

(** X6: the reference [transcribeAudio] returns is new: it named no string
    before the call, the string it now names is the only one added, and
    every string that existed keeps its contents. *)
Theorem transcribeAudio_fresh_string
    (context_ptr audio_data sample_rate language : Z) (translate : bool) st
    (samples : list jfloat) (tag : string) :
  env_wf (env st) →
  jfloat_arrays (env st) !! audio_data = Some samples →
  jstrings (env st) !! language = Some tag →
  ∃ ref st' text,
    transcribeAudio W context_ptr audio_data sample_rate language translate st
      = Some (ref, st') ∧
    jstrings (env st) !! ref = None ∧
    jstrings (env st') = <[ref := text]> (jstrings (env st)) ∧
    (∀ r s, jstrings (env st) !! r = Some s → jstrings (env st') !! r = Some s).
Proof.
  intros Hwf Harr Hlang. eexists _, _, _.
  split; [by apply transcribeAudio_run|]. simpl.
  assert (jstrings (env st) !! next_ref (env st) = None) as Hfresh
    by (by apply env_wf_fresh_ref).
  split; [done|]. split; [reflexivity|].
  intros r s Hr. rewrite lookup_insert_ne; [done|]. intros <-. congruence.
Qed.

(** X7: [transcribeAudio] hands the library a buffer holding exactly the
    samples of the array, and their number as the sample count; the
    [sample_rate] argument has no effect on what the call does. *)
Theorem transcribeAudio_sample_count
    (context_ptr audio_data sample_rate language : Z) (translate : bool) st
    (samples : list jfloat) (tag : string) :
  jfloat_arrays (env st) !! audio_data = Some samples →
  jstrings (env st) !! language = Some tag →
  ∃ ref st' mem ctx wparams audio,
    transcribeAudio W context_ptr audio_data sample_rate language translate st
      = Some (ref, st') ∧
    calls st' = calls st ++
      [whisper_full_call mem ctx wparams audio (Z.of_nat (length samples))] ∧
    read_floats mem audio = Some samples ∧
    (∀ sample_rate',
       transcribeAudio W context_ptr audio_data sample_rate' language translate st
         = Some (ref, st')).
Proof.
  intros Harr Hlang. eexists _, _, _, _, _, _.
  split; [by apply transcribeAudio_run|]. simpl.
  split; [reflexivity|].
  split; [|intros sample_rate'; by apply transcribeAudio_run].
  unfold read_floats. rewrite lookup_insert_ne by lia. by rewrite lookup_insert_eq.
Qed.

(** ** When the transcript is empty *)

Lemma join_empty_iff (texts : list string) :
  join_trailing_space texts = EmptyString ↔ texts = [].
Proof.
  split; [|by intros ->].
  destruct texts as [|t ts]; [done|]. simpl.
  destruct t; unfold String.app; discriminate.
Qed.

Lemma segment_texts_nil_iff (ctx : ptr) (l : L) :
  segment_texts W ctx l = [] ↔ whisper_full_n_segments W ctx l ≤ 0.
Proof.
  unfold segment_texts. split.
  - intros H. apply fmap_nil_inv in H.
    apply (f_equal length) in H. rewrite length_seqZ in H. simpl in H. lia.
  - intros H. by rewrite seqZ_nil.
Qed.

(** X8: the string [transcribeAudio] returns is empty exactly when the
    decode failed or left no segment; a successful decode with at least
    one segment gives a non-empty string, even if every segment text is
    empty. *)
Theorem transcribeAudio_empty_iff
    (context_ptr audio_data sample_rate language : Z) (translate : bool) st
    (samples : list jfloat) (tag : string) :
  jfloat_arrays (env st) !! audio_data = Some samples →
  jstrings (env st) !! language = Some tag →
  let decoded := decode_invocation W context_ptr translate st samples tag in
  ∃ ref st' text,
    transcribeAudio W context_ptr audio_data sample_rate language translate st
      = Some (ref, st') ∧
    jstrings (env st') !! ref = Some text ∧
    (text = EmptyString ↔
       decoded.1 ≠ 0 ∨
       whisper_full_n_segments W (ptr_of_jlong context_ptr) decoded.2 ≤ 0).
Proof.
  intros Harr Hlang decoded. eexists _, _, _.
  split; [by apply transcribeAudio_run|]. simpl.
  split; [by rewrite lookup_insert_eq|].
  fold (decode_invocation W context_ptr translate st samples tag). fold decoded.
  destruct (Z.eqb_spec decoded.1 0) as [Hok|Hfail].
  - rewrite join_empty_iff, segment_texts_nil_iff. split; [by right|].
    intros [Hne|Hn]; [done|exact Hn].
  - split; [by left|done].
Qed.

(** ** Invariants of a run *)

Lemma do_call_env (c : JniCall) st st' (u : unit) :
  env_wf (env st) →
  do_call W c st = Some (u, st') →
  env_wf (env st') ∧
  native (env st') = native (env st) ∧
  jfloat_arrays (env st') = jfloat_arrays (env st) ∧
  jstrings (env st) ⊆ jstrings (env st').
Proof.
  intros Hwf.
  destruct c as [model_path n|context_ptr audio_data sample_rate language translate|h];
    simpl; rewrite ?bind_run.
  - destruct (initContext W model_path n st) as [[h st1]|] eqn:Hrun; [|done].
    intros [= _ <-].
    split; [by eapply initContext_wf|].
    destruct (initContext_inv _ _ _ _ _ Hrun) as [chars Hpath].
    rewrite (initContext_run _ n st chars Hpath) in Hrun.
    injection Hrun as _ <-. simpl.
    by rewrite delete_insert_id by (apply env_wf_fresh_addr; [done|lia]).
  - destruct (transcribeAudio W _ _ _ _ _ st) as [[r st1]|] eqn:Hrun; [|done].
    intros [= _ <-].
    split; [by eapply transcribeAudio_wf|].
    destruct (transcribeAudio_inv _ _ _ _ _ _ _ _ Hrun) as (samples & tag & Harr & Hlang).
    rewrite (transcribeAudio_run _ _ sample_rate _ translate st _ _ Harr Hlang) in Hrun.
    injection Hrun as _ <-. simpl.
    rewrite borrow_two_release by (apply env_wf_fresh_addr; [done|lia]).
    split; [done|]. split; [done|].
    apply insert_subseteq. by apply env_wf_fresh_ref.
  - unfold releaseContext, call_whisper_free. by intros [= _ <-].
Qed.

Lemma run_calls_env (cs : list JniCall) :
  ∀ st st' (u : unit),
    env_wf (env st) →
    run_calls W cs st = Some (u, st') →
    env_wf (env st') ∧
    native (env st') = native (env st) ∧
    jfloat_arrays (env st') = jfloat_arrays (env st) ∧
    jstrings (env st) ⊆ jstrings (env st').
Proof.
  induction cs as [|c cs IH]; intros st st' u Hwf; simpl.
  - by intros [= _ <-].
  - rewrite bind_run.
    destruct (do_call W c st) as [[u1 st1]|] eqn:Hc; [|done].
    intros Hrest.
    destruct (do_call_env _ _ _ _ Hwf Hc) as (Hwf1 & Hn1 & Ha1 & Hs1).
    destruct (IH _ _ _ Hwf1 Hrest) as (Hwf' & Hn' & Ha' & Hs').
    split; [done|]. split; [congruence|]. split; [congruence|].
    by etrans.
Qed.

Lemma do_call_log (c : JniCall) st st' (u : unit) :
  do_call W c st = Some (u, st') →
  ∃ c', calls st' = calls st ++ [c'] ∧
    kind_of_call c' = kind_of_jni c ∧
    (0 < g_n_threads st → positive_threads_call c').
Proof.
  destruct c as [model_path n|context_ptr audio_data sample_rate language translate|h];
    simpl; rewrite ?bind_run.
  - destruct (initContext W model_path n st) as [[h st1]|] eqn:Hrun; [|done].
    intros [= _ <-].
    destruct (initContext_inv _ _ _ _ _ Hrun) as [chars Hpath].
    rewrite (initContext_run _ n st chars Hpath) in Hrun.
    injection Hrun as _ <-. simpl. by eexists.
  - destruct (transcribeAudio W _ _ _ _ _ st) as [[r st1]|] eqn:Hrun; [|done].
    intros [= _ <-].
    destruct (transcribeAudio_inv _ _ _ _ _ _ _ _ Hrun) as (samples & tag & Harr & Hlang).
    rewrite (transcribeAudio_run _ _ sample_rate _ translate st _ _ Harr Hlang) in Hrun.
    injection Hrun as _ <-. simpl. by eexists.
  - unfold releaseContext, call_whisper_free. intros [= _ <-]. simpl. by eexists.
Qed.

Lemma thread_count_or_default_pos (n : Z) : 0 < thread_count_or_default n.
Proof. unfold thread_count_or_default. case_decide; lia. Qed.

Lemma run_calls_positive_threads (cs : list JniCall) :
  ∀ st st' (u : unit),
    0 < g_n_threads st →
    Forall positive_threads_call (calls st) →
    run_calls W cs st = Some (u, st') →
    0 < g_n_threads st' ∧ Forall positive_threads_call (calls st').
Proof.
  induction cs as [|c cs IH]; intros st st' u Hg Hlog; simpl.
  - by intros [= _ <-].
  - rewrite bind_run.
    destruct (do_call W c st) as [[u1 st1]|] eqn:Hc; [|done].
    apply IH.
    + rewrite (do_call_threads _ _ _ _ Hc).
      destruct c; simpl; [apply thread_count_or_default_pos|done..].
    + destruct (do_call_log _ _ _ _ Hc) as (c' & -> & _ & Hpos).
      apply Forall_app. split; [done|]. apply Forall_singleton. by apply Hpos.
Qed.

(** X9: along any sequence of calls, the binding leaks no native buffer,
    never changes a float array of the caller, and never changes or
    removes a string: when the run returns, the live native buffers and the
    float arrays are those of its start, and every string of the start
    still holds the same characters. *)
Theorem run_calls_keeps_jvm (cs : list JniCall) st st' (u : unit) :
  env_wf (env st) →
  run_calls W cs st = Some (u, st') →
  native (env st') = native (env st) ∧
  jfloat_arrays (env st') = jfloat_arrays (env st) ∧
  (∀ r s, jstrings (env st) !! r = Some s → jstrings (env st') !! r = Some s).
Proof.
  intros Hwf Hrun.
  destruct (run_calls_env _ _ _ _ Hwf Hrun) as (_ & Hn & Ha & Hs).
  split; [done|]. split; [done|].
  intros r s Hr. by eapply lookup_weaken.
Qed.

(** X10: along any sequence of calls, each exported function makes exactly
    one state-changing call into the library, of its own kind and in call
    order: [initContext] loads, [transcribeAudio] decodes, [releaseContext]
    frees.  No context is freed or loaded behind the caller's back. *)
Theorem run_calls_log_kinds (cs : list JniCall) :
  ∀ st st' (u : unit),
    run_calls W cs st = Some (u, st') →
    kind_of_call <$> calls st' = (kind_of_call <$> calls st) ++ (kind_of_jni <$> cs).
Proof.
  induction cs as [|c cs IH]; intros st st' u; simpl.
  - intros [= _ <-]. by rewrite app_nil_r.
  - rewrite bind_run.
    destruct (do_call W c st) as [[u1 st1]|] eqn:Hc; [|done].
    intros Hrest. rewrite (IH _ _ _ Hrest).
    destruct (do_call_log _ _ _ _ Hc) as (c' & -> & Hk & _).
    rewrite fmap_app. simpl. rewrite Hk. by rewrite <- app_assoc.
Qed.

(** X11: from the initial state, whatever thread counts the calls to
    [initContext] were given, the global stays positive and every decode
    the library was asked for carries a positive thread count. *)
Theorem decode_threads_always_positive (e : JNIEnv) (l : L) (cs : list JniCall)
    st (u : unit) :
  run_calls W cs (initial_state e l) = Some (u, st) →
  0 < g_n_threads st ∧ Forall positive_threads_call (calls st).
Proof.
  intros Hrun.
  eapply run_calls_positive_threads; [| |exact Hrun]; simpl; [lia|constructor].
Qed.

End Properties.

(** * The theorems on concrete inputs *)

Lemma initContext_sets_thread_count_witness :
  ∃ h st', initContext Demo.whisper 1 (-3) Demo.start = Some (h, st') ∧
    (-3 ≤ 0 → g_n_threads st' = 4) ∧
    (0 < -3 → g_n_threads st' = -3).
Proof.
  apply (initContext_sets_thread_count Demo.whisper 1 (-3) Demo.start "model.bin").
  reflexivity.
Defined.

Lemma initContext_forwards_handle_witness :
  ∃ st', initContext Demo.whisper 1 2 Demo.start = Some (jlong_of_ptr 4096, st') ∧
    ptr_of_jlong (jlong_of_ptr 4096) = 4096 ∧
    (4096 ≠ nullptr → jlong_of_ptr 4096 ≠ 0) ∧
    (4096 = nullptr → jlong_of_ptr 4096 = 0).
Proof.
  apply (initContext_forwards_handle Demo.whisper 1 2 Demo.start "model.bin").
  - reflexivity.
  - vm_compute. split; [discriminate | reflexivity].
Defined.

Lemma initContext_loads_cpu_only_witness :
  ∃ h st' mem path,
    initContext Demo.whisper 4 8 Demo.start = Some (h, st') ∧
    read_chars mem path = Some "missing.bin" ∧
    calls st' = calls Demo.start ++ [whisper_init_call mem path (mkCParams false tt)].
Proof.
  apply (initContext_loads_cpu_only Demo.whisper 4 8 Demo.start "missing.bin").
  reflexivity.
Defined.

Lemma demo_ready_wf : env_wf (env Demo.ready).
Proof. apply (bool_decide_unpack _). vm_compute. exact I. Defined.

Lemma transcribeAudio_success_concatenation_witness :
  ∃ ref st',
    transcribeAudio Demo.whisper 4096 10 16000 3 true Demo.ready = Some (ref, st') ∧
    lib_state st' = Demo.mkDemo [4096] ["de"; "translated"] ∧
    jstrings (env st') !! ref =
      Some (join_trailing_space (segment_texts Demo.whisper 4096 (lib_state st'))).
Proof.
  apply (transcribeAudio_success_concatenation Demo.whisper 4096 10 16000 3 true
           Demo.ready [0; 1065353216; 3212836864] "de");
    reflexivity.
Defined.

Lemma transcribeAudio_failure_empty_witness :
  ∃ ref st',
    transcribeAudio Demo.whisper 0 10 16000 2 false Demo.ready = Some (ref, st') ∧
    jstrings (env st') !! ref = Some EmptyString ∧
    jstrings (env st') = <[ref := EmptyString]> (jstrings (env Demo.ready)) ∧
    jfloat_arrays (env st') = jfloat_arrays (env Demo.ready) ∧
    g_n_threads st' = g_n_threads Demo.ready.
Proof.
  apply (transcribeAudio_failure_empty Demo.whisper 0 10 16000 2 false
           Demo.ready [0; 1065353216; 3212836864] "en");
    [reflexivity | reflexivity | vm_compute; discriminate].
Defined.

Lemma failed_and_empty_decode_indistinguishable_witness :
  ∃ ref st1' st2',
    transcribeAudio Demo.whisper 0 10 16000 2 false Demo.ready = Some (ref, st1') ∧
    transcribeAudio Demo.whisper 4096 11 16000 3 true Demo.ready = Some (ref, st2') ∧
    jstrings (env st1') !! ref = Some EmptyString ∧
    env st1' = env st2'.
Proof.
  apply (failed_and_empty_decode_indistinguishable Demo.whisper
           0 10 16000 2 false 4096 11 16000 3 true Demo.ready Demo.ready
           [0; 1065353216; 3212836864] [] "en" "de");
    [reflexivity | exact demo_ready_wf | reflexivity | reflexivity | reflexivity
    | reflexivity | vm_compute; discriminate | reflexivity | reflexivity].
Defined.

Lemma transcribeAudio_passes_any_handle_witness :
  ∃ ref st' mem ctx wparams audio n_samples,
    transcribeAudio Demo.whisper 12345 10 16000 2 false Demo.ready = Some (ref, st') ∧
    calls st' = calls Demo.ready ++ [whisper_full_call mem ctx wparams audio n_samples] ∧
    ctx = 12345 `mod` 2 ^ 64 ∧
    (0 ≤ 12345 < 2 ^ 63 → ctx = 12345) ∧
    (- 2 ^ 63 ≤ 12345 < 0 → ctx = 12345 + 2 ^ 64) ∧
    (12345 = 0 → ctx = 0).
Proof.
  apply (transcribeAudio_passes_any_handle Demo.whisper 12345 10 16000 2 false
           Demo.ready [0; 1065353216; 3212836864] "en");
    reflexivity.
Defined.

Lemma transcribeAudio_borrows_audio_witness :
  ∃ ref st' mem ctx wparams audio n_samples,
    transcribeAudio Demo.whisper 4096 10 16000 2 false Demo.ready = Some (ref, st') ∧
    calls st' = calls Demo.ready ++ [whisper_full_call mem ctx wparams audio n_samples] ∧
    read_floats mem audio = Some [0; 1065353216; 3212836864] ∧
    jfloat_arrays (env st') = jfloat_arrays (env Demo.ready) ∧
    native (env st') !! audio = None ∧
    native (env st') = native (env Demo.ready).
Proof.
  apply (transcribeAudio_borrows_audio Demo.whisper 4096 10 16000 2 false
           Demo.ready [0; 1065353216; 3212836864] "en");
    [exact demo_ready_wf | reflexivity | reflexivity].
Defined.

Lemma transcribeAudio_fresh_config_witness :
  ∃ ref1 st1 ref2 st2 mem1 lang1 audio1 n1 mem2 lang2 audio2 n2,
    transcribeAudio Demo.whisper 4096 10 16000 2 false Demo.ready = Some (ref1, st1) ∧
    transcribeAudio Demo.whisper 4096 10 16000 3 true st1 = Some (ref2, st2) ∧
    calls st2 = calls Demo.ready ++
      [whisper_full_call mem1 (ptr_of_jlong 4096)
         (decode_config Demo.whisper (g_n_threads Demo.ready) false lang1) audio1 n1;
       whisper_full_call mem2 (ptr_of_jlong 4096)
         (decode_config Demo.whisper (g_n_threads Demo.ready) true lang2) audio2 n2] ∧
    read_chars mem1 lang1 = Some "en" ∧
    read_chars mem2 lang2 = Some "de".
Proof.
  apply (transcribeAudio_fresh_config Demo.whisper 4096
           10 16000 2 false 10 16000 3 true Demo.ready
           [0; 1065353216; 3212836864] [0; 1065353216; 3212836864] "en" "de");
    [exact demo_ready_wf | reflexivity | reflexivity | reflexivity | reflexivity].
Defined.


(** ** The binding run on the small library *)

Example demo_transcription :
  (λ r, jstrings (env r.2) !! r.1)
    <$> transcribeAudio Demo.whisper 4096 10 16000 3 true Demo.ready
  = Some (Some "de translated ").
Proof. reflexivity. Qed.

Example demo_silence :
  (λ r, jstrings (env r.2) !! r.1)
    <$> transcribeAudio Demo.whisper 4096 11 16000 2 false Demo.ready
  = Some (Some EmptyString).
Proof. reflexivity. Qed.

Example demo_null_handle :
  (λ r, (jstrings (env r.2) !! r.1, lib_state r.2))
    <$> transcribeAudio Demo.whisper 0 10 16000 2 false Demo.ready
  = Some (Some EmptyString, Demo.mkDemo [4096] []).
Proof. reflexivity. Qed.

Example demo_bad_reference :
  transcribeAudio Demo.whisper 4096 10 16000 77 false Demo.ready = None.
Proof. reflexivity. Qed.

Example demo_load_failure :
  (λ r, (r.1, g_n_threads r.2)) <$> initContext Demo.whisper 4 (-1) Demo.ready
  = Some (0, 4).
Proof. reflexivity. Qed.

Example demo_release :
  (λ r, lib_state r.2) <$> releaseContext Demo.whisper 4096 Demo.ready
  = Some (Demo.mkDemo [] []).
Proof. reflexivity. Qed.

(** ** The further properties on concrete inputs *)

Lemma demo_start_wf : env_wf (env Demo.start).
Proof. apply (bool_decide_unpack _). vm_compute. exact I. Defined.

Lemma handle_cast_round_trip_witness :
  0 ≤ ptr_of_jlong (-1) < 2 ^ 64 ∧ jlong_of_ptr (ptr_of_jlong (-1)) = -1.
Proof.
  apply (handle_cast_round_trip (-1)).
  vm_compute. split; [discriminate | reflexivity].
Defined.

Lemma handle_reaches_decode_witness :
  ∃ h st1 ref st2 mem wparams audio n_samples,
    initContext Demo.whisper 1 2 Demo.start = Some (h, st1) ∧
    transcribeAudio Demo.whisper h 10 16000 3 true st1 = Some (ref, st2) ∧
    calls st2 = calls st1 ++ [whisper_full_call mem 4096 wparams audio n_samples].
Proof.
  apply (handle_reaches_decode Demo.whisper 1 2 10 16000 3 true Demo.start
           "model.bin" [0; 1065353216; 3212836864] "de");
    [reflexivity | reflexivity | reflexivity
    | vm_compute; split; [discriminate | reflexivity]].
Defined.

Lemma handle_reaches_free_witness :
  ∃ h st1 st2 mem path,
    initContext Demo.whisper 1 2 Demo.start = Some (h, st1) ∧
    releaseContext Demo.whisper h st1 = Some (tt, st2) ∧
    calls st2 = calls Demo.start ++
      [whisper_init_call mem path (cpu_only_params Demo.whisper);
       whisper_free_call 4096] ∧
    lib_state st2 = Demo.mkDemo [] [].
Proof.
  apply (handle_reaches_free Demo.whisper 1 2 Demo.start "model.bin");
    [reflexivity | vm_compute; split; [discriminate | reflexivity]].
Defined.

Lemma initContext_leaves_jvm_witness :
  ∃ h st',
    initContext Demo.whisper 4 0 Demo.start = Some (h, st') ∧
    jstrings (env st') = jstrings (env Demo.start) ∧
    jfloat_arrays (env st') = jfloat_arrays (env Demo.start) ∧
    native (env st') = native (env Demo.start) ∧
    next_ref (env st') = next_ref (env Demo.start).
Proof.
  apply (initContext_leaves_jvm Demo.whisper 4 0 Demo.start "missing.bin");
    [exact demo_start_wf | reflexivity].
Defined.

Lemma transcribeAudio_fresh_string_witness :
  ∃ ref st' text,
    transcribeAudio Demo.whisper 4096 10 16000 3 true Demo.ready = Some (ref, st') ∧
    jstrings (env Demo.ready) !! ref = None ∧
    jstrings (env st') = <[ref := text]> (jstrings (env Demo.ready)) ∧
    (∀ r s, jstrings (env Demo.ready) !! r = Some s → jstrings (env st') !! r = Some s).
Proof.
  apply (transcribeAudio_fresh_string Demo.whisper 4096 10 16000 3 true Demo.ready
           [0; 1065353216; 3212836864] "de");
    [exact demo_ready_wf | reflexivity | reflexivity].
Defined.

Lemma transcribeAudio_sample_count_witness :
  ∃ ref st' mem ctx wparams audio,
    transcribeAudio Demo.whisper 4096 10 16000 3 true Demo.ready = Some (ref, st') ∧
    calls st' = calls Demo.ready ++ [whisper_full_call mem ctx wparams audio 3] ∧
    read_floats mem audio = Some [0; 1065353216; 3212836864] ∧
    (∀ sample_rate',
       transcribeAudio Demo.whisper 4096 10 sample_rate' 3 true Demo.ready
         = Some (ref, st')).
Proof.
  apply (transcribeAudio_sample_count Demo.whisper 4096 10 16000 3 true Demo.ready
           [0; 1065353216; 3212836864] "de");
    reflexivity.
Defined.

Lemma transcribeAudio_empty_iff_witness :
  ∃ ref st' text,
    transcribeAudio Demo.whisper 4096 11 16000 2 false Demo.ready = Some (ref, st') ∧
    jstrings (env st') !! ref = Some text ∧
    (text = EmptyString ↔
       (decode_invocation Demo.whisper 4096 false Demo.ready [] "en").1 ≠ 0 ∨
       whisper_full_n_segments Demo.whisper (ptr_of_jlong 4096)
         (decode_invocation Demo.whisper 4096 false Demo.ready [] "en").2 ≤ 0).
Proof.
  apply (transcribeAudio_empty_iff Demo.whisper 4096 11 16000 2 false Demo.ready
           [] "en");
    reflexivity.
Defined.

Lemma run_calls_keeps_jvm_witness :
  let cs := [CallInitContext 1 8; CallTranscribeAudio 4096 10 16000 2 false;
             CallTranscribeAudio 0 11 8000 3 true; CallReleaseContext 4096] in
  native (env (Demo.after cs)) = native (env Demo.start) ∧
  jfloat_arrays (env (Demo.after cs)) = jfloat_arrays (env Demo.start) ∧
  (∀ r s, jstrings (env Demo.start) !! r = Some s →
          jstrings (env (Demo.after cs)) !! r = Some s).
Proof.
  intros cs.
  apply (run_calls_keeps_jvm Demo.whisper cs Demo.start (Demo.after cs) tt);
    [exact demo_start_wf | vm_compute; reflexivity].
Defined.

Lemma run_calls_log_kinds_witness :
  let cs := [CallInitContext 1 8; CallTranscribeAudio 4096 10 16000 2 false;
             CallReleaseContext 4096; CallReleaseContext 4096] in
  kind_of_call <$> calls (Demo.after cs)
  = (kind_of_call <$> calls Demo.start) ++ (kind_of_jni <$> cs).
Proof.
  intros cs.
  apply (run_calls_log_kinds Demo.whisper cs Demo.start (Demo.after cs) tt).
  vm_compute. reflexivity.
Defined.

Lemma decode_threads_always_positive_witness :
  let cs := [CallInitContext 1 (-5); CallTranscribeAudio 4096 10 16000 2 false;
             CallInitContext 4 0; CallTranscribeAudio 4096 10 16000 3 true] in
  0 < g_n_threads (Demo.after cs) ∧
  Forall positive_threads_call (calls (Demo.after cs)).
Proof.
  intros cs.
  apply (decode_threads_always_positive Demo.whisper Demo.jvm (Demo.mkDemo [] []) cs
           (Demo.after cs) tt).
  vm_compute. reflexivity.
Defined.
